(** * tenable.io: the [TenableIO] session object

    A shallow embedding of [tenable/io/__init__.py]: the class attributes,
    the constructor, the two hooks [_build_session] and [_retry_request]
    that the class overrides, the endpoint properties and the [_tz] cache. *)

From Stdlib Require Import ZArith String List Lia QArith_base.
From Stdlib Require Import DecimalString DecimalPos DecimalZ.
From stdpp Require Import base option list gmap strings.

Local Open Scope Z_scope.
Local Open Scope string_scope.

(** ** Python values *)

Module Py.

(** [str(n)] on an [int]: the decimal numeral, with a minus sign for a
    negative number. *)
Definition str (n : Z) : string := NilZero.string_of_int (Z.to_int n).

(** [int(s)] on a decimal numeral, the inverse that makes [str] "the
    decimal representation". *)
Definition int (s : string) : option Z :=
  Z.of_int <$> NilZero.int_of_string s.

(** The values a keyword argument of a [requests] call may hold.  A header
    dict maps header names to header values, both [str]. *)
Inductive value :=
| VNone
| VBool (b : bool)
| VInt (z : Z)
| VStr (s : string)
| VDict (d : gmap string string).

(** The exceptions the modelled code can raise. *)
Inductive exn :=
| TypeError
| KeyError (k : string)
| AttributeError.

(** [v[k] = x]: only a dict supports item assignment. *)
Definition setitem (v : value) (k x : string) : exn + value :=
  match v with
  | VDict d => inr (VDict (<[k := x]> d))
  | _ => inl TypeError
  end.

Definition is_dict (v : value) : bool :=
  match v with VDict _ => true | _ => false end.

(** Truth value of a cached listing: [None] and the empty list are
    falsy, a list with an element is truthy. *)
Definition truthy (v : option (list string)) : bool :=
  match v with
  | Some (_ :: _) => true
  | _ => false
  end.

End Py.

(** ** The [requests] objects the class touches *)

Module Requests.

(** A response: its status code and its header mapping.  The mapping is
    used through [k in headers] and [headers[k]] only, so it is kept as
    its lookup function (whichever way the mapping folds the case of a
    key, the function is the lookup the source performs). *)
Record Response := {
  status_code : Z;
  headers : string -> option string
}.

(** A session: the headers sent with every request. *)
Record Session := {
  session_headers : gmap string string
}.

(** [session.headers.update(d)]: the entries of [d] replace those of the
    same name.  Names are compared as they are written, where [requests]
    compares them without regard to case: the two agree on the name that
    is updated and read back under one spelling, which is all that is
    stated of a session below. *)
Definition update (d : gmap string string) (s : Session) : Session :=
  {| session_headers := d ∪ session_headers s |}.

(** What [session.request(method, url, **kwargs)] is called with. *)
Record Request := {
  method : string;
  url : string;
  kwargs : gmap string Py.value
}.

End Requests.

Import Py Requests.

(** ** The attributes of a [TenableIO] instance *)

Module Self.

(** [_session] is [None] until the session is built; [_tzcache] holds
    [None] for Python's [None].  [_backoff] is a number of seconds, only
    stored here. *)
Record t := {
  _access_key : string;
  _secret_key : string;
  _url : string;
  _retries : nat;
  _backoff : Q;
  _ua_identity : option string;
  _session : option Session;
  _tzcache : option (list string)
}.

Definition set_url (u : string) (self : t) : t :=
  {| _access_key := _access_key self; _secret_key := _secret_key self;
     _url := u; _retries := _retries self;
     _backoff := _backoff self; _ua_identity := _ua_identity self;
     _session := _session self; _tzcache := _tzcache self |}.

Definition set_retries (n : nat) (self : t) : t :=
  {| _access_key := _access_key self; _secret_key := _secret_key self;
     _url := _url self; _retries := n;
     _backoff := _backoff self; _ua_identity := _ua_identity self;
     _session := _session self; _tzcache := _tzcache self |}.

Definition set_backoff (b : Q) (self : t) : t :=
  {| _access_key := _access_key self; _secret_key := _secret_key self;
     _url := _url self; _retries := _retries self;
     _backoff := b; _ua_identity := _ua_identity self;
     _session := _session self; _tzcache := _tzcache self |}.

Definition set_ua_identity (u : option string) (self : t) : t :=
  {| _access_key := _access_key self; _secret_key := _secret_key self;
     _url := _url self; _retries := _retries self;
     _backoff := _backoff self; _ua_identity := u;
     _session := _session self; _tzcache := _tzcache self |}.

Definition set_session (s : option Session) (self : t) : t :=
  {| _access_key := _access_key self; _secret_key := _secret_key self;
     _url := _url self; _retries := _retries self;
     _backoff := _backoff self; _ua_identity := _ua_identity self;
     _session := s; _tzcache := _tzcache self |}.

Definition set_tzcache (c : option (list string)) (self : t) : t :=
  {| _access_key := _access_key self; _secret_key := _secret_key self;
     _url := _url self; _retries := _retries self;
     _backoff := _backoff self; _ua_identity := _ua_identity self;
     _session := _session self; _tzcache := c |}.

End Self.

Import Self.

(** ** The base class [tenable.base.APISession] *)

(** Its module is not part of the sources at hand.  What follows is what
    the documentation of [tenable.io] says of it; the two methods the
    subclass overrides are arguments, as the base class calls them on
    [self]. *)

Module APISession.

(** What one call of a verb did, in order: the requests handed to the
    session, and the waits between them. *)
Inductive event :=
| Sent (s : Session) (rq : Request)
| Backoff.

Inductive error :=
| RetryError (r : Response)
| HTTPError (r : Response)
| Exn (e : exn).

Inductive outcome :=
| Returned (r : Response)
| Raised (e : error).

(** The requests of a trace, in order. *)
Definition sent (tr : list event) : list Request :=
  omap (λ e, match e with Sent _ rq => Some rq | Backoff => None end) tr.

(** The waits of a trace. *)
Definition is_backoff (e : event) : bool :=
  match e with Backoff => true | Sent _ _ => false end.

Definition backoffs (tr : list event) : nat :=
  length (List.filter is_backoff tr).

(** The trace that sends the given requests to [s] in order, with a wait
    before each of them but the first. *)
Definition with_backoff (s : Session) (rqs : list Request) : list event :=
  match rqs with
  | [] => []
  | rq :: rest => Sent s rq :: flat_map (λ rq', [Backoff; Sent s rq']) rest
  end.

(** Modelled from the spec: which statuses the transport retries, missing
    with [tenable.base]: "performs retry-with-backoff on 429/5xx". *)
Definition retryable (status : Z) : bool :=
  ((status =? 429) || ((500 <=? status) && (status <=? 599)))%Z.

(** Modelled from the spec: [APISession._build_session], missing with
    [tenable.base]: the transport "owns the underlying HTTP client".  The
    session it makes for an object is the argument [new_session]. *)
Definition _build_session (new_session : t → Session) (self : t) : t :=
  set_session (Some (new_session self)) self.

Section Subclass.

(** The overridden methods. *)
Variable _build_session : t → t.
Variable _retry_request : Response → Z → gmap string value → exn + gmap string value.

(** The network: the response the session gives to the [n]-th attempt
    of a call. *)
Variable send : Session → nat → Request → Response.

(** The response-code check of a status that is not retried. *)
Variable accepted : Z → bool.

(** Modelled from the spec: [APISession.__init__], missing with
    [tenable.base].  The constructor arguments as the class docstring
    gives them: an argument left out keeps the default ([_url] of the
    class, 3 retries, 1 second).  The session argument is kept on the
    object, for [_build_session] to use as it sees fit, and the session is
    built. *)
Definition __init__ (self : t) (url : option string)
    (retries : option nat) (backoff : option Q)
    (ua_identity : option string) (session : option Session) : t :=
  let self := from_option (λ u, set_url u self) self url in
  let self := from_option (λ n, set_retries n self) self retries in
  let self := from_option (λ b, set_backoff b self) self backoff in
  let self := set_ua_identity ua_identity self in
  let self := set_session session self in
  _build_session self.

(** Modelled from the spec: the retry loop of [APISession._request],
    missing with [tenable.base]: "retry N times, then raise", a retry
    on a 429 or 5xx response, after a backoff, with the keyword
    arguments the hook returns.  [budget] is the number of retries
    left, [n] the number of retries made. *)
Fixpoint attempts (s : Session) (budget n : nat) (rq : Request)
    : list event * outcome :=
  let resp := send s n rq in
  if retryable (status_code resp) then
    match budget with
    | O => ([Sent s rq], Raised (RetryError resp))
    | S budget =>
        match _retry_request resp (Z.of_nat (S n)) (kwargs rq) with
        | inl e => ([Sent s rq], Raised (Exn e))
        | inr kw =>
            let rq' := {| method := method rq; url := url rq;
                          kwargs := kw |} in
            let '(tr, out) := attempts s budget (S n) rq' in
            (Sent s rq :: Backoff :: tr, out)
        end
    end
  else if accepted (status_code resp) then ([Sent s rq], Returned resp)
  else ([Sent s rq], Raised (HTTPError resp)).

(** Modelled from the spec: [APISession._request], missing with
    [tenable.base]: "the path is appended to the base url", after the
    slash that the example [tio.get('scans')] needs. *)
Definition _request (self : t) (method path : string)
    (kwargs : gmap string value) : list event * outcome :=
  match _session self with
  | None => ([], Raised (Exn AttributeError))
  | Some s =>
      attempts s (_retries self) 0
        {| method := method; url := _url self +:+ "/" +:+ path;
           kwargs := kwargs |}
  end.

(** Modelled from the spec: the verbs of the "Raw HTTP Calls" section,
    missing with [tenable.base]. *)
Definition get (self : t) (path : string) (kwargs : gmap string value) :=
  _request self "GET" path kwargs.
Definition post (self : t) (path : string) (kwargs : gmap string value) :=
  _request self "POST" path kwargs.
Definition put (self : t) (path : string) (kwargs : gmap string value) :=
  _request self "PUT" path kwargs.
Definition delete (self : t) (path : string) (kwargs : gmap string value) :=
  _request self "DELETE" path kwargs.

End Subclass.

End APISession.

(** ** The class [tenable.io.TenableIO] *)

Module TenableIO.

(** The class attributes of lines 114 and 115. *)
Module Class.
Definition _tzcache : option (list string) := None.
Definition _url : string := "https://cloud.tenable.com".
End Class.

(** *** Objects and the store *)

(** The endpoint classes the module imports.  Their bodies are in other
    modules; an instance is kept as its class and the argument its
    constructor was called with. *)
Inductive endpoint_class :=
| AgentConfigAPI | AgentExclusionsAPI | AgentGroupsAPI | AgentsAPI
| AssetsAPI | AuditLogAPI | EditorAPI | ExclusionsAPI | ExportsAPI
| FileAPI | FiltersAPI | FoldersAPI | GroupsAPI | PermissionsAPI
| PluginsAPI | PoliciesAPI | ScannerGroupsAPI | ScannersAPI | ScansAPI
| ServerAPI | SessionAPI | TagsAPI | TargetGroupsAPI | UsersAPI
| WorkbenchesAPI.

(** Objects are referred to by their address. *)
Definition loc := nat.

Inductive object :=
| Instance (o : t)
| Endpoint (cls : endpoint_class) (api : loc).

(** The store, and the number of calls of [ScansAPI.timezones] made so
    far. *)
Record world := {
  heap : gmap loc object;
  timezones_calls : nat
}.

(** Computations on the store that may raise. *)
Definition M (A : Type) : Type := world → exn + (A * world).

Definition ret {A} (a : A) : M A := λ w, inr (a, w).

Definition bind {A B} (c : M A) (k : A → M B) : M B :=
  λ w, match c w with
       | inl e => inl e
       | inr (a, w') => k a w'
       end.

Notation "x <~ c ;; k" := (bind c (λ x, k))
  (at level 100, c at next level, right associativity).
Notation "c ;;; k" := (bind c (λ _, k))
  (at level 100, right associativity).

(** Calling a class: a new object at an address not in use. *)
Definition new (o : object) : M loc :=
  λ w, let l := fresh (dom (heap w)) in
       inr (l, {| heap := <[l := o]> (heap w);
                  timezones_calls := timezones_calls w |}).

(** The attributes of the instance at [self]. *)
Definition attrs (self : loc) : M t :=
  λ w, match heap w !! self with
       | Some (Instance o) => inr (o, w)
       | _ => inl AttributeError
       end.

(** [self._tzcache = c] *)
Definition assign_tzcache (self : loc) (c : option (list string)) : M unit :=
  o <~ attrs self ;;
  λ w, inr (tt, {| heap := <[self := Instance (set_tzcache c o)]> (heap w);
                   timezones_calls := timezones_calls w |}).

(** *** The endpoint properties, lines 117 to 215 *)

Definition agent_config (self : loc) : M loc := new (Endpoint AgentConfigAPI self).
Definition agent_groups (self : loc) : M loc := new (Endpoint AgentGroupsAPI self).
Definition agent_exclusions (self : loc) : M loc := new (Endpoint AgentExclusionsAPI self).
Definition agents (self : loc) : M loc := new (Endpoint AgentsAPI self).
Definition assets (self : loc) : M loc := new (Endpoint AssetsAPI self).
Definition audit_log (self : loc) : M loc := new (Endpoint AuditLogAPI self).
Definition editor (self : loc) : M loc := new (Endpoint EditorAPI self).
Definition exclusions (self : loc) : M loc := new (Endpoint ExclusionsAPI self).
Definition exports (self : loc) : M loc := new (Endpoint ExportsAPI self).
Definition files (self : loc) : M loc := new (Endpoint FileAPI self).
Definition filters (self : loc) : M loc := new (Endpoint FiltersAPI self).
Definition folders (self : loc) : M loc := new (Endpoint FoldersAPI self).
Definition groups (self : loc) : M loc := new (Endpoint GroupsAPI self).
Definition permissions (self : loc) : M loc := new (Endpoint PermissionsAPI self).
Definition plugins (self : loc) : M loc := new (Endpoint PluginsAPI self).
Definition policies (self : loc) : M loc := new (Endpoint PoliciesAPI self).
Definition scanner_groups (self : loc) : M loc := new (Endpoint ScannerGroupsAPI self).
Definition scanners (self : loc) : M loc := new (Endpoint ScannersAPI self).
Definition scans (self : loc) : M loc := new (Endpoint ScansAPI self).
Definition server (self : loc) : M loc := new (Endpoint ServerAPI self).
Definition session (self : loc) : M loc := new (Endpoint SessionAPI self).
Definition tags (self : loc) : M loc := new (Endpoint TagsAPI self).
Definition target_groups (self : loc) : M loc := new (Endpoint TargetGroupsAPI self).
Definition users (self : loc) : M loc := new (Endpoint UsersAPI self).
Definition workbenches (self : loc) : M loc := new (Endpoint WorkbenchesAPI self).

(** The names of the endpoint properties, and attribute access by name. *)
Module Name.
Inductive t :=
| agent_config | agent_groups | agent_exclusions | agents | assets
| audit_log | editor | exclusions | exports | files | filters | folders
| groups | permissions | plugins | policies | scanner_groups | scanners
| scans | server | session | tags | target_groups | users | workbenches.
End Name.

Definition getattr (name : Name.t) : loc → M loc :=
  match name with
  | Name.agent_config => agent_config
  | Name.agent_groups => agent_groups
  | Name.agent_exclusions => agent_exclusions
  | Name.agents => agents
  | Name.assets => assets
  | Name.audit_log => audit_log
  | Name.editor => editor
  | Name.exclusions => exclusions
  | Name.exports => exports
  | Name.files => files
  | Name.filters => filters
  | Name.folders => folders
  | Name.groups => groups
  | Name.permissions => permissions
  | Name.plugins => plugins
  | Name.policies => policies
  | Name.scanner_groups => scanner_groups
  | Name.scanners => scanners
  | Name.scans => scans
  | Name.server => server
  | Name.session => session
  | Name.tags => tags
  | Name.target_groups => target_groups
  | Name.users => users
  | Name.workbenches => workbenches
  end.

(** *** The [_tz] property, lines 217 to 226 *)

Section Timezones.

(** What the [n]-th call of [ScansAPI.timezones] returns; the method is
    in another module.  A call that raises is left out: what is stated of
    [_tz] on a falsy cache is about the accesses whose call returns. *)
Variable listing : nat → list string.

(** [f.timezones()] on an endpoint object [f]. *)
Definition timezones (f : loc) : M (list string) :=
  λ w, match heap w !! f with
       | Some (Endpoint ScansAPI _) =>
           inr (listing (timezones_calls w),
                {| heap := heap w;
                   timezones_calls := S (timezones_calls w) |})
       | _ => inl AttributeError
       end.

Definition _tz (self : loc) : M (option (list string)) :=
  o <~ attrs self ;;
  (if negb (truthy (_tzcache o)) then
     f <~ scans self ;;
     v <~ timezones f ;;
     assign_tzcache self (Some v)
   else ret tt) ;;;
  o <~ attrs self ;;
  ret (_tzcache o).

(** [k] accesses of [_tz] in a row, and the values they gave. *)
Fixpoint _tz_times (k : nat) (self : loc)
    : M (list (option (list string))) :=
  match k with
  | O => ret []
  | S k =>
      v <~ _tz self ;;
      vs <~ _tz_times k self ;;
      ret (v :: vs)
  end.

End Timezones.

(** *** [_retry_request], lines 234 to 250 *)

(** [kwargs['headers'][k] = x], raising what Python raises: [KeyError]
    when there is no ['headers'] entry, [TypeError] when the entry is not
    a dict. *)
Definition set_header (kwargs : gmap string value) (k x : string)
    : exn + gmap string value :=
  match kwargs !! "headers" with
  | None => inl (KeyError "headers")
  | Some h =>
      match setitem h k x with
      | inl e => inl e
      | inr h' => inr (<["headers" := h']> kwargs)
      end
  end.

Definition _retry_request (response : Response) (retries : Z)
    (kwargs : gmap string value) : exn + gmap string value :=
  (* if 'headers' not in kwargs: kwargs['headers'] = dict() *)
  let kwargs :=
    match kwargs !! "headers" with
    | None => <["headers" := VDict ∅]> kwargs
    | Some _ => kwargs
    end in
  (* if 'X-Request-Uuid' in response.headers: ... *)
  let tagged :=
    match headers response "X-Request-Uuid" with
    | Some uuid => set_header kwargs "X-Tio-Last-Request-Uuid" uuid
    | None => inr kwargs
    end in
  match tagged with
  | inl e => inl e
  | inr kwargs => set_header kwargs "X-Tio-Retry-Count" (str retries)
  end.

(** *** [_build_session], lines 253 to 261 *)

Section Session.

(** The session the base class makes for an object. *)
Variable new_session : t → Session.

(** [self._session] is the session the base class has just made; the
    update maps over it. *)
Definition _build_session (self : t) : t :=
  let self := APISession._build_session new_session self in
  set_session
    (update {[ "X-APIKeys" :=
                 "accessKey=" +:+ _access_key self
                   +:+ "; secretKey=" +:+ _secret_key self +:+ ";" ]}
       <$> _session self)
    self.

(** *** [__init__], lines 228 to 232 *)

(** The object as it is before the constructor runs has the class
    attributes only; the attributes the base class keeps start at the
    defaults of the class docstring. *)
Definition __init__ (access_key secret_key : string)
    (url : option string) (retries : option nat) (backoff : option Q)
    (ua_identity : option string) (session : option Session) : t :=
  let self :=
    {| _access_key := access_key; _secret_key := secret_key;
       _url := Class._url; _retries := 3; _backoff := Qmake 1 1;
       _ua_identity := None; _session := None;
       _tzcache := Class._tzcache |} in
  APISession.__init__ _build_session self url retries backoff
    ua_identity session.

End Session.

(** *** The inherited verbs *)

Definition get := APISession.get _retry_request.
Definition post := APISession.post _retry_request.
Definition put := APISession.put _retry_request.
Definition delete := APISession.delete _retry_request.
Definition _request := APISession._request _retry_request.

End TenableIO.

Import TenableIO.

(** The headers dict of a kwargs, when it has one. *)
Definition headers_of (kwargs : gmap string value) : option (gmap string string) :=
  match kwargs !! "headers" with
  | Some (VDict h) => Some h
  | _ => None
  end.

(** The kwargs on which the hook does not raise: no ['headers'] entry, or a
    dict under it. *)
Definition headers_ok (kwargs : gmap string value) : Prop :=
  match kwargs !! "headers" with
  | Some v => is_dict v = true
  | None => True
  end.

(** What the hook does to the headers: the request uuid of the response,
    when it has one, then the retry count. *)
Definition tag (response : Response) (retries : Z)
    (h : gmap string string) : gmap string string :=
  <["X-Tio-Retry-Count" := str retries]>
    (match headers response "X-Request-Uuid" with
     | Some uuid => <["X-Tio-Last-Request-Uuid" := uuid]> h
     | None => h
     end).

(** The uuid header of the returned kwargs goes with the uuid header of
    the response: present together, and then equal. *)
Definition uuid_follows_response (response : Response)
    (kwargs' : gmap string value) : Prop :=
  ∃ h', headers_of kwargs' = Some h' ∧
    (is_Some (h' !! "X-Tio-Last-Request-Uuid")
       ↔ is_Some (headers response "X-Request-Uuid")) ∧
    (∀ v, h' !! "X-Tio-Last-Request-Uuid" = Some v →
          headers response "X-Request-Uuid" = Some v).

(** The kwargs returned carry the retry count in their headers. *)
Definition has_retry_count (retries : Z) (kwargs' : gmap string value) : Prop :=
  ∃ h', kwargs' !! "headers" = Some (VDict h') ∧
    h' !! "X-Tio-Retry-Count" = Some (str retries).

(** ** Sample inputs *)

Module Sample.

(** A 429 response that carries a request uuid, and one that does not. *)
Definition throttled : Response :=
  {| status_code := 429;
     headers := λ k, if decide (k = "X-Request-Uuid") then Some "6f1c"
                     else None |}.

Definition throttled_bare : Response :=
  {| status_code := 429; headers := λ _, None |}.

(** [dict(params='q')], [dict(headers=None)],
    [dict(headers={'Accept': 'text/csv'}, params='q')] and
    [dict(headers={'X-Tio-Last-Request-Uuid': '6f1c'})]. *)
Definition params_only : gmap string value := {[ "params" := VStr "q" ]}.

Definition headers_none : gmap string value := {[ "headers" := VNone ]}.

Definition accept_csv : gmap string value :=
  <["headers" := VDict {[ "Accept" := "text/csv" ]}]> params_only.

Definition tagged_before : gmap string value :=
  {[ "headers" := VDict {[ "X-Tio-Last-Request-Uuid" := "6f1c" ]} ]}.

(** A session with a user agent, as the base class may make it. *)
Definition plain_session : Session :=
  {| session_headers := {[ "User-Agent" := "pyTenable" ]} |}.

(** [TenableIO('ACCESS_KEY', 'SECRET_KEY')], the example of the class
    docstring. *)
Definition tio : t :=
  __init__ (λ _, plain_session) "ACCESS_KEY" "SECRET_KEY"
    None None None None None.

(** A store with that object at address 0, no timezone call made yet. *)
Definition store : world :=
  {| heap := {[ 0%nat := Instance tio ]}; timezones_calls := 0 |}.

(** A timezone service whose first answer is empty. *)
Definition zones (n : nat) : list string :=
  match n with
  | O => []
  | S _ => ["UTC"; "Europe/Paris"]
  end.

(** A 200 response, a server that always answers 429, and one that
    does so twice before it answers 200. *)
Definition fine : Response :=
  {| status_code := 200; headers := λ _, None |}.

Definition always_throttled (_ : Session) (_ : nat) (_ : Request)
    : Response := throttled.

Definition throttled_twice (_ : Session) (n : nat) (_ : Request)
    : Response := if (n <? 2)%nat then throttled else fine.

(** A response-code check that lets the 2xx statuses through. *)
Definition success (status : Z) : bool :=
  ((200 <=? status) && (status <=? 299))%Z.

(** The session of [tio]. *)
Definition tio_session : Session :=
  update {[ "X-APIKeys" := "accessKey=ACCESS_KEY; secretKey=SECRET_KEY;" ]}
    plain_session.

End Sample.

(** ** Runs of accesses, and reading an object back *)

(** The accesses of the properties named, one after the other, and the
    objects they returned. *)
Fixpoint getattrs (names : list Name.t) (self : loc) : M (list loc) :=
  match names with
  | [] => ret []
  | name :: names =>
      l <~ getattr name self ;;
      ls <~ getattrs names self ;;
      ret (l :: ls)
  end.

(** The class of the object that an access of a property returns, read
    off an access in an empty store. *)
Definition endpoint_of (name : Name.t) : option endpoint_class :=
  match getattr name 0%nat {| heap := ∅; timezones_calls := 0 |} with
  | inr (l, w) =>
      match heap w !! l with
      | Some (Endpoint cls _) => Some cls
      | _ => None
      end
  | inl _ => None
  end.

(** The ['X-APIKeys'] header of the session of an object. *)
Definition api_keys_of (self : t) : option string :=
  match _session self with
  | Some s => session_headers s !! "X-APIKeys"
  | None => None
  end.

(** A string that holds no semicolon. *)
Fixpoint no_semicolon (s : string) : bool :=
  match s with
  | EmptyString => true
  | String c s => negb (Ascii.eqb c (Ascii.ascii_of_nat 59)) && no_semicolon s
  end.


(** More sample inputs. *)
Module Case.

(** A 503 response with a request uuid of its own. *)
Definition unavailable : Response :=
  {| status_code := 503;
     headers := λ k, if decide (k = "X-Request-Uuid") then Some "9a2e"
                     else None |}.

(** An object whose access key holds a semicolon, and one with other keys
    that gives the same header. *)
Definition odd_key : t :=
  __init__ (λ _, Sample.plain_session) "a; secretKey=b" "c"
    None None None None None.

Definition other_key : t :=
  __init__ (λ _, Sample.plain_session) "a" "b; secretKey=c"
    None None None None None.

(** A 404 response, and a server that answers every request with it. *)
Definition not_found : Response :=
  {| status_code := 404; headers := λ _, None |}.

Definition always_missing (_ : Session) (_ : nat) (_ : Request)
    : Response := not_found.

(** A timezone service that never has a zone to give. *)
Definition no_zones (_ : nat) : list string := [].

(** A store whose object holds a listing already. *)
Definition warm_store : world :=
  {| heap := {[ 0%nat := Instance (set_tzcache (Some ["UTC"]) Sample.tio) ]};
     timezones_calls := 1 |}.

End Case.

(** ** The hook [_retry_request] *)

Lemma str_decimal (n : Z) : Py.int (str n) = Some n.
Proof.
  unfold Py.int, str.
  rewrite NilZero.isi.
  - simpl. f_equal. apply DecimalZ.of_to.
  - destruct n; simpl; try discriminate.
    intros [= H]. by apply DecimalPos.Unsigned.to_uint_nonnil in H.
  - destruct n; simpl; try discriminate.
    intros [= H]. by apply DecimalPos.Unsigned.to_uint_nonnil in H.
Qed.

Lemma str_inj (n m : Z) : str n = str m → n = m.
Proof.
  intros H. assert (Some n = Some m) as [= ->]; [|done].
  by rewrite <- !str_decimal, H.
Qed.

Lemma set_header_dict (kw : gmap string value) (h : gmap string string) k x :
  kw !! "headers" = Some (VDict h) →
  set_header kw k x = inr (<["headers" := VDict (<[k := x]> h)]> kw).
Proof. intros H. unfold set_header. by rewrite H. Qed.

Lemma retry_request_dict r n (kw : gmap string value) h :
  kw !! "headers" = Some (VDict h) →
  _retry_request r n kw = inr (<["headers" := VDict (tag r n h)]> kw).
Proof.
  intros H. unfold _retry_request, tag. rewrite H.
  destruct (headers r "X-Request-Uuid") as [uuid|].
  - rewrite (set_header_dict _ h) by done.
    rewrite (set_header_dict _ (<["X-Tio-Last-Request-Uuid" := uuid]> h))
      by apply lookup_insert_eq.
    by rewrite insert_insert_eq.
  - by rewrite (set_header_dict _ h).
Qed.

Lemma retry_request_absent r n (kw : gmap string value) :
  kw !! "headers" = None →
  _retry_request r n kw = inr (<["headers" := VDict (tag r n ∅)]> kw).
Proof.
  intros H.
  assert (_retry_request r n kw
          = _retry_request r n (<["headers" := VDict ∅]> kw)) as ->.
  { unfold _retry_request. by rewrite H, lookup_insert_eq. }
  rewrite (retry_request_dict _ _ _ ∅) by apply lookup_insert_eq.
  by rewrite insert_insert_eq.
Qed.

Lemma retry_request_not_dict r n (kw : gmap string value) v :
  kw !! "headers" = Some v → is_dict v = false →
  _retry_request r n kw = inl TypeError.
Proof.
  intros H Hv. unfold _retry_request, set_header. rewrite H.
  destruct (headers r "X-Request-Uuid"); rewrite H; by destruct v.
Qed.

(** On kwargs with well-formed headers the hook returns, and what it
    returns is the kwargs with the headers tagged. *)
Lemma retry_request_ok r n (kw : gmap string value) :
  headers_ok kw →
  _retry_request r n kw
  = inr (<["headers" := VDict (tag r n (default ∅ (headers_of kw)))]> kw).
Proof.
  unfold headers_ok, headers_of.
  destruct (kw !! "headers") as [[]|] eqn:H; try done; intros _.
  - by apply retry_request_dict.
  - by apply retry_request_absent.
Qed.

Lemma retry_request_keeps_ok r n (kw kw' : gmap string value) :
  headers_ok kw → _retry_request r n kw = inr kw' → headers_ok kw'.
Proof.
  intros Hok. rewrite retry_request_ok by done. intros [= <-].
  unfold headers_ok. by rewrite lookup_insert_eq.
Qed.

Lemma tag_count r n h : tag r n h !! "X-Tio-Retry-Count" = Some (str n).
Proof. unfold tag. apply lookup_insert_eq. Qed.

Lemma tag_uuid r n h :
  tag r n h !! "X-Tio-Last-Request-Uuid"
  = match headers r "X-Request-Uuid" with
    | Some uuid => Some uuid
    | None => h !! "X-Tio-Last-Request-Uuid"
    end.
Proof.
  unfold tag. rewrite lookup_insert_ne by done.
  destruct (headers r "X-Request-Uuid"); [apply lookup_insert_eq | done].
Qed.

Lemma tag_other r n h k :
  k ≠ "X-Tio-Retry-Count" → k ≠ "X-Tio-Last-Request-Uuid" →
  tag r n h !! k = h !! k.
Proof.
  intros H1 H2. unfold tag. rewrite lookup_insert_ne by done.
  destruct (headers r "X-Request-Uuid"); [by rewrite lookup_insert_ne | done].
Qed.

(** The hook returns on well-formed headers only, and what it returns
    carries the count. *)
Lemma retry_request_returns r n (kw kw' : gmap string value) :
  _retry_request r n kw = inr kw' → headers_ok kw ∧ has_retry_count n kw'.
Proof.
  intros H.
  assert (headers_ok kw) as Hok.
  { unfold headers_ok. destruct (kw !! "headers") as [v|] eqn:Hv; [|done].
    destruct (is_dict v) eqn:Hd; [done|].
    by rewrite (retry_request_not_dict _ _ _ v) in H. }
  split; [done|]. rewrite retry_request_ok in H by done. injection H as <-.
  eexists. split; [apply lookup_insert_eq | apply tag_count].
Qed.

(** When the hook raises, the headers are not a dict and the exception is
    the [TypeError] of the item assignment. *)
Lemma retry_request_raises r n (kw : gmap string value) e :
  _retry_request r n kw = inl e → e = TypeError ∧ ¬ headers_ok kw.
Proof.
  intros H. unfold headers_ok.
  destruct (kw !! "headers") as [v|] eqn:Hv.
  - destruct (is_dict v) eqn:Hd.
    + rewrite retry_request_ok in H; [done|].
      unfold headers_ok. by rewrite Hv.
    + rewrite (retry_request_not_dict _ _ _ v) in H by done.
      injection H as <-. split; [done|]. congruence.
  - rewrite retry_request_absent in H; done.
Qed.

(** C4, as stated, fails on [dict(headers=None)]: the hook raises
    [TypeError] at the item assignment and returns no dict. *)
Lemma C4_headers_none_raises :
  _retry_request Sample.throttled 1 Sample.headers_none = inl TypeError ∧
  ¬ ∃ kw', _retry_request Sample.throttled 1 Sample.headers_none = inr kw'
           ∧ has_retry_count 1 kw'.
Proof.
  assert (_retry_request Sample.throttled 1 Sample.headers_none
          = inl TypeError) as H.
  { by apply (retry_request_not_dict _ _ _ VNone). }
  split; [done|]. intros (kw' & H' & _). congruence.
Qed.

(** C4 (amended): for every response, retry count [n] and kwargs whose
    ['headers'] entry, if there is one, is a dict, [_retry_request] returns
    a dict whose ['headers'] entry is a dict mapping ['X-Tio-Retry-Count']
    to the decimal numeral of [n]; when kwargs had no ['headers'] entry the
    headers are a new dict that holds the tags only. *)
Theorem C4_retry_count_header r n (kw : gmap string value) :
  headers_ok kw →
  ∃ kw', _retry_request r n kw = inr kw' ∧
    has_retry_count n kw' ∧
    Py.int (str n) = Some n ∧
    (kw !! "headers" = None → kw' !! "headers" = Some (VDict (tag r n ∅))).
Proof.
  intros Hok. eexists. split; [by apply retry_request_ok|].
  split; [|split].
  - eexists. split; [apply lookup_insert_eq | apply tag_count].
  - apply str_decimal.
  - intros Hnone. rewrite lookup_insert_eq.
    unfold headers_of. by rewrite Hnone.
Qed.

Lemma C4_retry_count_header_witness :
  headers_ok Sample.params_only ∧
  ∃ kw', _retry_request Sample.throttled 2 Sample.params_only = inr kw' ∧
    has_retry_count 2 kw' ∧
    Py.int (str 2) = Some 2 ∧
    (Sample.params_only !! "headers" = None →
     kw' !! "headers" = Some (VDict (tag Sample.throttled 2 ∅))).
Proof.
  assert (headers_ok Sample.params_only) as H by (vm_compute; exact I).
  split; [exact H|].
  exact (C4_retry_count_header Sample.throttled 2 Sample.params_only H).
Defined.

(** C5, as stated, fails when the headers of kwargs already hold a uuid of
    an earlier retry and the response has none: the returned headers still
    hold it. *)
Lemma C5_stale_uuid_kept :
  ∃ kw', _retry_request Sample.throttled_bare 2 Sample.tagged_before = inr kw'
         ∧ ¬ uuid_follows_response Sample.throttled_bare kw'.
Proof.
  eexists. split.
  { by apply (retry_request_dict _ _ _ {[ "X-Tio-Last-Request-Uuid" := "6f1c" ]}). }
  intros (h' & Hh & [Hiff _] & _).
  unfold headers_of in Hh. rewrite lookup_insert_eq in Hh.
  injection Hh as <-.
  destruct Hiff as [? [=]].
  rewrite tag_uuid. simpl. by rewrite lookup_singleton_eq.
Qed.

(** C5 (amended): for every response and every kwargs whose ['headers']
    entry, if there is one, is a dict, the headers returned map
    ['X-Tio-Last-Request-Uuid'] to the ['X-Request-Uuid'] of the response
    when the response has one, and otherwise hold under that key what the
    headers of kwargs held; so when the headers of kwargs did not hold the
    key, the returned headers hold it if and only if the response holds
    ['X-Request-Uuid'], with the same value. *)
Theorem C5_last_request_uuid r n (kw : gmap string value) :
  headers_ok kw →
  ∃ kw' h', _retry_request r n kw = inr kw' ∧
    headers_of kw' = Some h' ∧
    h' !! "X-Tio-Last-Request-Uuid"
    = match headers r "X-Request-Uuid" with
      | Some uuid => Some uuid
      | None => default ∅ (headers_of kw) !! "X-Tio-Last-Request-Uuid"
      end ∧
    (default ∅ (headers_of kw) !! "X-Tio-Last-Request-Uuid" = None →
     uuid_follows_response r kw').
Proof.
  intros Hok. eexists _, _. split; [by apply retry_request_ok|].
  assert (∀ h, headers_of (<["headers" := VDict h]> kw) = Some h) as Hh.
  { intros h. unfold headers_of. by rewrite lookup_insert_eq. }
  split; [apply Hh|]. split; [apply tag_uuid|].
  intros Hnone. exists (tag r n (default ∅ (headers_of kw))).
  split; [apply Hh|]. rewrite tag_uuid, Hnone.
  destruct (headers r "X-Request-Uuid"); by split.
Qed.

Lemma C5_last_request_uuid_witness :
  headers_ok Sample.accept_csv ∧
  ∃ kw' h', _retry_request Sample.throttled 1 Sample.accept_csv = inr kw' ∧
    headers_of kw' = Some h' ∧
    h' !! "X-Tio-Last-Request-Uuid"
    = match headers Sample.throttled "X-Request-Uuid" with
      | Some uuid => Some uuid
      | None => default ∅ (headers_of Sample.accept_csv)
                  !! "X-Tio-Last-Request-Uuid"
      end ∧
    (default ∅ (headers_of Sample.accept_csv)
       !! "X-Tio-Last-Request-Uuid" = None →
     uuid_follows_response Sample.throttled kw').
Proof.
  assert (headers_ok Sample.accept_csv) as H by (vm_compute; reflexivity).
  split; [exact H|].
  exact (C5_last_request_uuid Sample.throttled 1 Sample.accept_csv H).
Defined.

(** C6: on kwargs that hold a headers dict, [_retry_request] returns a dict
    whose entries other than ['headers'] are those of kwargs, and whose
    headers are those of kwargs at every key other than
    ['X-Tio-Retry-Count'] and ['X-Tio-Last-Request-Uuid']. *)
Theorem C6_retry_request_frame r n (kw : gmap string value) h :
  kw !! "headers" = Some (VDict h) →
  ∃ kw' h', _retry_request r n kw = inr kw' ∧
    kw' !! "headers" = Some (VDict h') ∧
    (∀ k, k ≠ "headers" → kw' !! k = kw !! k) ∧
    (∀ k, k ≠ "X-Tio-Retry-Count" → k ≠ "X-Tio-Last-Request-Uuid" →
          h' !! k = h !! k).
Proof.
  intros H. eexists _, _. split; [by apply retry_request_dict|].
  split; [apply lookup_insert_eq|]. split.
  - intros k Hk. by rewrite lookup_insert_ne.
  - intros k H1 H2. by apply tag_other.
Qed.

Lemma C6_retry_request_frame_witness :
  Sample.accept_csv !! "headers" = Some (VDict {[ "Accept" := "text/csv" ]}) ∧
  ∃ kw' h', _retry_request Sample.throttled 3 Sample.accept_csv = inr kw' ∧
    kw' !! "headers" = Some (VDict h') ∧
    (∀ k, k ≠ "headers" → kw' !! k = Sample.accept_csv !! k) ∧
    (∀ k, k ≠ "X-Tio-Retry-Count" → k ≠ "X-Tio-Last-Request-Uuid" →
          h' !! k = ({[ "Accept" := "text/csv" ]} : gmap string string) !! k).
Proof.
  assert (Sample.accept_csv !! "headers"
          = Some (VDict {[ "Accept" := "text/csv" ]})) as H
    by (vm_compute; reflexivity).
  split; [exact H|].
  exact (C6_retry_request_frame Sample.throttled 3 Sample.accept_csv _ H).
Defined.

(** ** The session and its API keys *)

Lemma build_session_keys new_session self :
  ∃ s, _session (_build_session new_session self) = Some s ∧
    session_headers s !! "X-APIKeys"
    = Some ("accessKey=" +:+ _access_key self
              +:+ "; secretKey=" +:+ _secret_key self +:+ ";").
Proof.
  eexists. split; [reflexivity|].
  simpl. apply lookup_union_Some_l, lookup_singleton_eq.
Qed.

(** C1: whatever access key and secret key the constructor is given,
    once [_build_session] has run the headers of the session map
    ['X-APIKeys'] to ['accessKey=<access_key>; secretKey=<secret_key>;']
    made of the two arguments; [_build_session] does so on any object,
    from the keys the object holds. *)
Theorem C1_api_keys_header new_session access_key secret_key
    url retries backoff ua_identity session :
  (∀ self, ∃ s, _session (_build_session new_session self) = Some s ∧
     session_headers s !! "X-APIKeys"
     = Some ("accessKey=" +:+ _access_key self
               +:+ "; secretKey=" +:+ _secret_key self +:+ ";")) ∧
  ∃ s, _session (__init__ new_session access_key secret_key url retries
                   backoff ua_identity session) = Some s ∧
    session_headers s !! "X-APIKeys"
    = Some ("accessKey=" +:+ access_key
              +:+ "; secretKey=" +:+ secret_key +:+ ";").
Proof.
  split; [apply build_session_keys|].
  unfold __init__, APISession.__init__.
  destruct url, retries, backoff; apply build_session_keys.
Qed.

(** ** The endpoint properties *)

Lemma new_fresh o w :
  ∃ l, new o w = inr (l, {| heap := <[l := o]> (heap w);
                            timezones_calls := timezones_calls w |}) ∧
       heap w !! l = None.
Proof.
  exists (fresh (dom (heap w))). split; [done|].
  apply not_elem_of_dom, is_fresh.
Qed.

Lemma getattr_new name self :
  ∃ cls, getattr name self = new (Endpoint cls self).
Proof. destruct name; eexists; reflexivity. Qed.

(** C8: every access of an endpoint property of [TenableIO] makes a new
    object of an endpoint class, constructed with the instance itself as
    its argument, and returns it; nothing else in the store changes, and
    a later access returns another object. *)
Theorem C8_endpoint_properties name self w :
  ∃ cls l w', getattr name self w = inr (l, w') ∧
    heap w !! l = None ∧
    heap w' = <[l := Endpoint cls self]> (heap w) ∧
    timezones_calls w' = timezones_calls w ∧
    ∀ name2 l2 w2, getattr name2 self w' = inr (l2, w2) → l2 ≠ l.
Proof.
  destruct (getattr_new name self) as [cls ->].
  destruct (new_fresh (Endpoint cls self) w) as (l & -> & Hl).
  eexists cls, l, _. repeat split; [done|].
  intros name2 l2 w2.
  destruct (getattr_new name2 self) as [cls2 ->].
  destruct (new_fresh (Endpoint cls2 self)
              {| heap := <[l := Endpoint cls self]> (heap w);
                 timezones_calls := timezones_calls w |}) as (l' & -> & Hl').
  intros [= <- _] ->. simpl in Hl'. by rewrite lookup_insert_eq in Hl'.
Qed.

(** ** The timezone cache *)

Lemma tz_hit listing self w o :
  heap w !! self = Some (Instance o) →
  truthy (_tzcache o) = true →
  _tz listing self w = inr (_tzcache o, w).
Proof.
  intros H Ht. unfold _tz, bind, attrs. rewrite H, Ht. simpl.
  by rewrite H.
Qed.

Lemma tz_miss listing self w o :
  heap w !! self = Some (Instance o) →
  truthy (_tzcache o) = false →
  let v := listing (timezones_calls w) in
  _tz listing self w
  = inr (Some v,
         {| heap := <[self := Instance (set_tzcache (Some v) o)]>
                      (<[fresh (dom (heap w)) := Endpoint ScansAPI self]>
                         (heap w));
            timezones_calls := S (timezones_calls w) |}).
Proof.
  intros H Ht v.
  assert (fresh (dom (heap w)) ≠ self) as Hne.
  { intros <-. by apply (is_fresh (dom (heap w))), elem_of_dom. }
  unfold _tz, bind, attrs, assign_tzcache, bind, attrs, scans, new, timezones.
  rewrite H, Ht. simpl.
  rewrite lookup_insert_eq. simpl.
  rewrite lookup_insert_ne by done. rewrite H. simpl.
  by rewrite lookup_insert_eq.
Qed.

Lemma tz_times_hit listing self w o k :
  heap w !! self = Some (Instance o) →
  truthy (_tzcache o) = true →
  _tz_times listing k self w = inr (replicate k (_tzcache o), w).
Proof.
  intros H Ht. induction k as [|k IH]; [done|].
  simpl. unfold bind at 1. rewrite (tz_hit _ _ _ o) by done.
  unfold bind at 1. by rewrite IH.
Qed.

(** C7: when an access of [_tz] leaves a truthy value [v] in the cache,
    every later access, made while the cache still holds [v], returns [v]
    and makes no call of [scans.timezones()] (the store is left as it
    was), so any number of accesses in a row do; and an access made while
    the cache is falsy, be it [None] or an empty listing kept from an
    earlier call, makes one call of [scans.timezones()], keeps its result
    and returns it. *)
Theorem C7_tz_cache listing self w o :
  heap w !! self = Some (Instance o) →
  (∀ v w1, _tz listing self w = inr (v, w1) → truthy v = true →
     (∃ o1, heap w1 !! self = Some (Instance o1) ∧ _tzcache o1 = v) ∧
     (∀ w2 o2, heap w2 !! self = Some (Instance o2) → _tzcache o2 = v →
               _tz listing self w2 = inr (v, w2)) ∧
     (∀ k, _tz_times listing k self w1 = inr (replicate k v, w1))) ∧
  (truthy (_tzcache o) = false →
     ∃ w1 o1, _tz listing self w
              = inr (Some (listing (timezones_calls w)), w1) ∧
       timezones_calls w1 = S (timezones_calls w) ∧
       heap w1 !! self = Some (Instance o1) ∧
       _tzcache o1 = Some (listing (timezones_calls w))).
Proof.
  intros H. split.
  - intros v w1 Htz Hv.
    assert (∃ o1, heap w1 !! self = Some (Instance o1) ∧ _tzcache o1 = v)
      as (o1 & Ho1 & Hc1).
    { destruct (truthy (_tzcache o)) eqn:Ht.
      + rewrite (tz_hit _ _ _ o) in Htz by done. injection Htz as <- <-.
        by exists o.
      + rewrite (tz_miss _ _ _ o) in Htz by done. injection Htz as <- <-.
        eexists. split; [apply lookup_insert_eq | done]. }
    split_and!.
    + by exists o1.
    + intros w2 o2 Ho2 <-. by apply tz_hit.
    + intros k. subst v. by apply tz_times_hit.
  - intros Ht. eexists _, _. split; [by apply tz_miss|].
    split; [done|]. split; [apply lookup_insert_eq | done].
Qed.

Lemma C7_tz_cache_witness :
  heap Sample.store !! 0%nat = Some (Instance Sample.tio) ∧
  (∃ w1 o1, _tz Sample.zones 0%nat Sample.store = inr (Some [], w1) ∧
     timezones_calls w1 = 1%nat ∧
     heap w1 !! 0%nat = Some (Instance o1) ∧ _tzcache o1 = Some []) ∧
  (∃ w1, _tz (λ _, ["UTC"]) 0%nat Sample.store = inr (Some ["UTC"], w1) ∧
     _tz_times (λ _, ["UTC"]) 2 0%nat w1
     = inr ([Some ["UTC"]; Some ["UTC"]], w1)).
Proof.
  assert (heap Sample.store !! 0%nat = Some (Instance Sample.tio)) as H
    by (vm_compute; reflexivity).
  split; [exact H|]. split.
  - exact (proj2 (C7_tz_cache Sample.zones 0%nat Sample.store Sample.tio H)
             eq_refl).
  - eexists. split; [vm_compute; reflexivity|].
    apply (proj1 (C7_tz_cache (λ _, ["UTC"]) 0%nat Sample.store Sample.tio H)
             (Some ["UTC"]));
      [vm_compute; reflexivity | reflexivity].
Defined.

(** ** The transport *)

Lemma sent_cons s rq tr :
  APISession.sent (APISession.Sent s rq :: tr) = rq :: APISession.sent tr.
Proof. reflexivity. Qed.

Lemma sent_backoff tr :
  APISession.sent (APISession.Backoff :: tr) = APISession.sent tr.
Proof. reflexivity. Qed.

Lemma sent_nil : APISession.sent [] = [].
Proof. reflexivity. Qed.

Lemma backoffs_cons s rq tr :
  APISession.backoffs (APISession.Sent s rq :: tr) = APISession.backoffs tr.
Proof. reflexivity. Qed.

Lemma backoffs_backoff tr :
  APISession.backoffs (APISession.Backoff :: tr)
  = S (APISession.backoffs tr).
Proof. reflexivity. Qed.

Lemma backoffs_nil : APISession.backoffs [] = 0%nat.
Proof. reflexivity. Qed.

Create Rewrite HintDb trace.
#[local] Hint Rewrite sent_cons sent_backoff sent_nil
  backoffs_cons backoffs_backoff backoffs_nil : trace.

Ltac trace := autorewrite with trace in *; simpl length in *.

Lemma retryable_spec status :
  APISession.retryable status = true
  ↔ (status = 429 ∨ 500 ≤ status ≤ 599)%Z.
Proof. unfold APISession.retryable. lia. Qed.

Section Transport.

Variable send : Session → nat → Request → Response.
Variable accepted : Z → bool.
Variable s : Session.

Import APISession.

Let run := attempts _retry_request send accepted s.

Lemma run_eq budget n rq :
  run budget n rq
  = let resp := send s n rq in
    if retryable (status_code resp) then
      match budget with
      | O => ([Sent s rq], Raised (RetryError resp))
      | S budget =>
          match _retry_request resp (Z.of_nat (S n)) (kwargs rq) with
          | inl e => ([Sent s rq], Raised (Exn e))
          | inr kw =>
              let '(tr, out) :=
                run budget (S n)
                  {| method := method rq; url := url rq; kwargs := kw |} in
              (Sent s rq :: Backoff :: tr, out)
          end
      end
    else if accepted (status_code resp) then ([Sent s rq], Returned resp)
    else ([Sent s rq], Raised (HTTPError resp)).
Proof. by destruct budget. Qed.

(** One step of case analysis on a run of the loop. *)
Ltac run_cases H :=
  rewrite run_eq in H; cbv beta iota zeta in H;
  lazymatch type of H with
  | context [retryable ?st] => destruct (retryable st) eqn:Hretry
  end;
  [ try lazymatch type of H with
        | context [_retry_request ?r ?k ?kw] =>
            destruct (_retry_request r k kw) as [e|kw'] eqn:Hhook;
            [| lazymatch type of H with
               | context [run ?b ?m ?q] =>
                   destruct (run b m q) as [tr' out'] eqn:Hrun
               end ]
        end
  | lazymatch type of H with
    | context [accepted ?st] => destruct (accepted st) eqn:Hacc
    end ];
  injection H as <- <-.

Lemma one_sent rq (e : event) :
  e ∈ [Sent s rq] →
  e = Backoff ∨
  ∃ rq', e = Sent s rq' ∧ method rq' = method rq ∧ url rq' = url rq.
Proof. intros ->%list_elem_of_singleton. right. by eexists. Qed.

(** The first request of a run is the one given, every request goes to
    the same session with the same method and url, and a wait precedes
    every request but the first. *)
Lemma run_shape budget n rq tr out :
  run budget n rq = (tr, out) →
  sent tr !! 0%nat = Some rq ∧
  tr = with_backoff s (sent tr) ∧
  (∀ rq', rq' ∈ sent tr → method rq' = method rq ∧ url rq' = url rq) ∧
  S (backoffs tr) = length (sent tr) ∧
  (length (sent tr) ≤ S budget)%nat.
Proof.
  revert n rq tr out.
  induction budget as [|budget IH]; intros n rq tr out H;
    run_cases H;
    try (split_and!;
         [done | done | by intros ? ->%list_elem_of_singleton
         | trace; lia | trace; lia]).
  apply IH in Hrun as (H0 & Hwb & Hall & Hb & Hlen).
  split_and!; [done | | | trace; lia | trace; lia].
  - trace. destruct (sent tr') as [|rq0 rest] eqn:Hs; [done|].
    rewrite Hwb at 1. done.
  - trace. intros rq0 [->|Hin]%elem_of_cons; [done|].
    by apply Hall in Hin.
Qed.


(** When every response is one the transport retries, the retries are
    used up, one wait each, and the call raises. *)
Lemma run_exhausted budget n rq tr out :
  run budget n rq = (tr, out) →
  headers_ok (kwargs rq) →
  (∀ i rq_i, sent tr !! i = Some rq_i →
             retryable (status_code (send s (n + i) rq_i)) = true) →
  length (sent tr) = S budget ∧ backoffs tr = budget ∧
  ∃ r, out = Raised (RetryError r) ∧ retryable (status_code r) = true.
Proof.
  revert n rq tr out.
  induction budget as [|budget IH]; intros n rq tr out H Hok Hall;
    run_cases H; trace.
  all: try (specialize (Hall 0%nat rq eq_refl);
            rewrite Nat.add_0_r in Hall; congruence).
  - split_and!; [done..|]. by eexists.
  - rewrite retry_request_ok in Hhook; done.
  - destruct (IH _ _ _ _ Hrun) as (Hlen & Hb & r & -> & Hr).
    + by eapply retry_request_keeps_ok.
    + intros i rq_i Hi. replace (S n + i)%nat with (n + S i)%nat by lia.
      by apply Hall.
    + split_and!; [lia | lia |]. by eexists.
Qed.

(** A response that is returned is the one the session gave to the last
    request, as it is; its status is not a retried one and passed the
    check. *)
Lemma run_returned budget n rq tr out r :
  run budget n rq = (tr, out) →
  out = Returned r →
  ∃ i rq_i, sent tr !! i = Some rq_i ∧ length (sent tr) = S i ∧
    r = send s (n + i) rq_i ∧
    retryable (status_code r) = false ∧ accepted (status_code r) = true.
Proof.
  revert n rq tr out.
  induction budget as [|budget IH]; intros n rq tr out H Hout;
    run_cases H; trace; simplify_eq.
  all: try (exists 0%nat, rq; rewrite Nat.add_0_r; by split_and!).
  destruct (IH _ _ _ _ Hrun eq_refl) as (i & rq_i & Hi & Hlen & -> & ? & ?).
  exists (S i), rq_i.
  replace (n + S i)%nat with (S n + i)%nat by lia.
  split_and!; [done | lia | done..].
Qed.

(** The [k]-th retry of a call carries the count [k]. *)
Lemma run_tagged budget n rq tr out i rq_i :
  run budget n rq = (tr, out) →
  sent tr !! S i = Some rq_i →
  has_retry_count (Z.of_nat (n + S i)) (kwargs rq_i).
Proof.
  revert n rq tr out i.
  induction budget as [|budget IH]; intros n rq tr out i H Hi;
    run_cases H; trace; try done.
  destruct i as [|i]; simpl in Hi.
  - apply run_shape in Hrun as (H0 & _). simplify_eq/=.
    replace (n + 1)%nat with (S n) by lia.
    by eapply proj2, retry_request_returns.
  - replace (n + S (S i))%nat with (S n + S i)%nat by lia. by eapply IH.
Qed.


(** How a run ends is decided by the response to its last request: a
    status that is not retried gives the response back when it passes the
    check and the error of the check when it does not; a retried status
    ends the run when the retries are used up, or at once when the hook
    raises on headers that are not a dict. *)
Lemma run_outcome budget n rq tr out :
  run budget n rq = (tr, out) →
  ∃ i rq_i, sent tr !! i = Some rq_i ∧ length (sent tr) = S i ∧
    let r := send s (n + i) rq_i in
    if retryable (status_code r) then
      (out = Raised (RetryError r) ∧ i = budget) ∨
      (out = Raised (Exn TypeError) ∧ i = 0%nat ∧ (0 < budget)%nat ∧
       ¬ headers_ok (kwargs rq))
    else if accepted (status_code r) then out = Returned r
    else out = Raised (HTTPError r).
Proof.
  revert n rq tr out.
  induction budget as [|budget IH]; intros n rq tr out H;
    run_cases H; trace.
  all: try (exists 0%nat, rq; rewrite Nat.add_0_r; cbv zeta;
            rewrite Hretry, ?Hacc; split_and!; [done | done | try done]).
  - by left.
  - right. apply retry_request_raises in Hhook as [-> Hno].
    split_and!; [done | done | lia | done].
  - destruct (retry_request_returns _ _ _ _ Hhook) as [Hok _].
    pose proof (retry_request_keeps_ok _ _ _ _ Hok Hhook) as Hok'.
    destruct (IH _ _ _ _ Hrun) as (i & rq_i & Hi & Hlen & Hout).
    exists (S i), rq_i.
    replace (n + S i)%nat with (S n + i)%nat by lia.
    split_and!; [done | lia |]. cbv zeta in *.
    destruct (retryable (status_code (send s (S n + i) rq_i))); [|done].
    destruct Hout as [[-> ->]|(_ & _ & _ & Hno)]; [by left | done].
Qed.

End Transport.

Lemma request_run send accepted self s method path (kw : gmap string value) :
  _session self = Some s →
  _request send accepted self method path kw
  = APISession.attempts _retry_request send accepted s (_retries self) 0
      {| method := method; url := _url self +:+ "/" +:+ path; kwargs := kw |}.
Proof. intros H. unfold _request, APISession._request. by rewrite H. Qed.

Lemma init_attrs new_session access_key secret_key base_url retries backoff
    ua_identity session :
  let self := __init__ new_session access_key secret_key base_url retries
                backoff ua_identity session in
  _url self = default Class._url base_url ∧
  _retries self = default 3%nat retries ∧
  ∃ s, _session self = Some s.
Proof. destruct base_url, retries, backoff; simpl; eauto. Qed.

(** C2, as stated, fails on [dict(headers=None)]: with 3 retries
    configured and a server that answers 429 to every attempt, the call
    makes one attempt, no retry and no wait, and raises the [TypeError] of
    the hook.  And retrying is not the only way to fail: on a 404 the call
    raises the error of the response-code check after one attempt. *)
Lemma C2_headers_none_no_retry :
  ∃ tr rq,
    _request Sample.always_throttled Sample.success Sample.tio "GET" "scans"
      Sample.headers_none
    = (tr, APISession.Raised (APISession.Exn TypeError)) ∧
    APISession.sent tr = [rq] ∧
    status_code (Sample.always_throttled Sample.tio_session 0 rq) = 429%Z ∧
    _retries Sample.tio = 3%nat ∧
    APISession.backoffs tr = 0%nat ∧
    length (APISession.sent tr) ≠ S (_retries Sample.tio) ∧
    ∃ tr' rq',
      _request Case.always_missing Sample.success Sample.tio "GET" "scans" ∅
      = (tr', APISession.Raised (APISession.HTTPError Case.not_found)) ∧
      APISession.sent tr' = [rq'].
Proof.
  eexists _, _. split; [vm_compute; reflexivity|].
  split_and!; [reflexivity | reflexivity | reflexivity | reflexivity
              | by vm_compute |].
  eexists _, _. split; [vm_compute; reflexivity | reflexivity].
Qed.

(** C2 (amended): a call whose ['headers'] keyword is absent or a dict and
    whose every attempt gets a response of a retried status is retried as
    many times as [_retries] says, with a wait before each retry, and then
    raises a retry error.  A call that raises does so in one of three
    ways, each decided by the response to its last request: the retry
    error, on a retried status with the retries used up; the error of the
    response-code check, on a status that is not retried and does not
    pass the check; the [TypeError] of the hook, after a single attempt
    that got a retried status, when retries are configured and the
    ['headers'] keyword is not a dict. *)
Theorem C2_retries_then_raises send accepted self s method path
    (kw : gmap string value) tr out :
  _session self = Some s →
  _request send accepted self method path kw = (tr, out) →
  (headers_ok kw →
   (∀ i rq, APISession.sent tr !! i = Some rq →
      (status_code (send s i rq) = 429
       ∨ 500 ≤ status_code (send s i rq) ≤ 599)%Z) →
   length (APISession.sent tr) = S (_retries self) ∧
   APISession.backoffs tr = _retries self ∧
   tr = APISession.with_backoff s (APISession.sent tr) ∧
   ∃ r, out = APISession.Raised (APISession.RetryError r)) ∧
  (∀ e, out = APISession.Raised e →
     ∃ i rq, APISession.sent tr !! i = Some rq ∧
       length (APISession.sent tr) = S i ∧
       match e with
       | APISession.RetryError r =>
           r = send s i rq ∧
           (status_code r = 429 ∨ 500 ≤ status_code r ≤ 599)%Z ∧
           i = _retries self
       | APISession.HTTPError r =>
           r = send s i rq ∧
           ¬ (status_code r = 429 ∨ 500 ≤ status_code r ≤ 599)%Z ∧
           accepted (status_code r) = false
       | APISession.Exn x =>
           x = TypeError ∧
           (status_code (send s i rq) = 429
            ∨ 500 ≤ status_code (send s i rq) ≤ 599)%Z ∧
           i = 0%nat ∧ (0 < _retries self)%nat ∧ ¬ headers_ok kw
       end).
Proof.
  intros Hs Hrun. rewrite (request_run _ _ _ s) in Hrun by done. split.
  - intros Hok Hall.
    destruct (run_exhausted _ _ _ _ _ _ _ _ Hrun) as (Hlen & Hb & r & -> & _);
      [done | by intros i rq ?; apply retryable_spec, Hall |].
    apply run_shape in Hrun as (_ & Hwb & _).
    split_and!; [done..|]. by eexists.
  - intros e ->.
    destruct (run_outcome _ _ _ _ _ _ _ _ Hrun)
      as (i & rq & Hi & Hlen & Hout).
    exists i, rq. split_and!; [done..|].
    cbv zeta in Hout. change (0 + i)%nat with i in Hout.
    destruct (APISession.retryable (status_code (send s i rq))) eqn:Hr.
    + apply retryable_spec in Hr.
      destruct Hout as [[[= ->] ->]|([= ->] & -> & Hlt & Hno)]; done.
    + assert (¬ (status_code (send s i rq) = 429
                 ∨ 500 ≤ status_code (send s i rq) ≤ 599)%Z) as Hno
        by (rewrite <- retryable_spec; congruence).
      destruct (accepted (status_code (send s i rq))) eqn:Ha; [done|].
      by injection Hout as ->.
Qed.

Lemma C2_retries_then_raises_witness :
  (∃ tr out,
     _request Sample.always_throttled Sample.success Sample.tio "GET" "scans"
       ∅ = (tr, out) ∧
     length (APISession.sent tr) = 4%nat ∧
     APISession.backoffs tr = 3%nat ∧
     tr = APISession.with_backoff Sample.tio_session (APISession.sent tr) ∧
     ∃ r, out = APISession.Raised (APISession.RetryError r)) ∧
  (∃ tr rq,
     _request Case.always_missing Sample.success Sample.tio "GET" "scans" ∅
     = (tr, APISession.Raised (APISession.HTTPError Case.not_found)) ∧
     APISession.sent tr = [rq] ∧
     Sample.success (status_code Case.not_found) = false) ∧
  (0 < _retries Sample.tio)%nat ∧ ¬ headers_ok Sample.headers_none.
Proof.
  split; [|split].
  - eexists _, _. split; [vm_compute; reflexivity|].
    apply (C2_retries_then_raises Sample.always_throttled Sample.success
             Sample.tio Sample.tio_session "GET" "scans" ∅).
    + vm_compute; reflexivity.
    + vm_compute; reflexivity.
    + exact I.
    + intros i rq _. left. reflexivity.
  - eexists _, _. split; [vm_compute; reflexivity|]. split; [reflexivity|].
    destruct (proj2 (C2_retries_then_raises Case.always_missing
                       Sample.success Sample.tio Sample.tio_session
                       "GET" "scans" ∅ _ _
                       ltac:(vm_compute; reflexivity)
                       ltac:(vm_compute; reflexivity))
                _ eq_refl) as (i & rq & _ & _ & _ & _ & Hacc).
    exact Hacc.
  - destruct (proj2 (C2_retries_then_raises Sample.always_throttled
                       Sample.success Sample.tio Sample.tio_session
                       "GET" "scans" Sample.headers_none _ _
                       ltac:(vm_compute; reflexivity)
                       ltac:(vm_compute; reflexivity))
                _ eq_refl) as (i & rq & _ & _ & _ & _ & _ & Hlt & Hno).
    split; [exact Hlt | exact Hno].
Defined.




(** What a call of method [verb] on [path] does when it goes straight to
    the session: the first request is the caller's own, every request is
    for the base url with the path appended, and a response that comes
    back is the one the session gave, as it is. *)
Lemma raw_call send accepted self s verb path (kw : gmap string value)
    tr out :
  _session self = Some s →
  _request send accepted self verb path kw = (tr, out) →
  APISession.sent tr !! 0%nat
  = Some {| method := verb; url := _url self +:+ "/" +:+ path;
            kwargs := kw |} ∧
  tr = APISession.with_backoff s (APISession.sent tr) ∧
  (∀ rq, rq ∈ APISession.sent tr →
         method rq = verb ∧ url rq = _url self +:+ "/" +:+ path) ∧
  (∀ r, out = APISession.Returned r →
        ∃ i rq, APISession.sent tr !! i = Some rq ∧
          length (APISession.sent tr) = S i ∧ r = send s i rq ∧
          accepted (status_code r) = true).
Proof.
  intros Hs Hrun. rewrite (request_run _ _ _ s) in Hrun by done.
  destruct (run_shape _ _ _ _ _ _ _ _ Hrun) as (H0 & Hwb & Hall & _).
  split_and!; [done..|].
  intros r ->.
  destruct (run_returned _ _ _ _ _ _ _ _ _ Hrun eq_refl)
    as (i & rq & ? & ? & ? & _ & ?).
  by exists i, rq.
Qed.

(** How a call ends: the response-code checking of the response to the
    last request decides it.  A status that is not retried and passes the
    check gives that response back, as it is. *)
Lemma raw_result send accepted self s verb path (kw : gmap string value)
    tr out :
  _session self = Some s →
  _request send accepted self verb path kw = (tr, out) →
  ∃ i rq, APISession.sent tr !! i = Some rq ∧
    length (APISession.sent tr) = S i ∧
    let r := send s i rq in
    if APISession.retryable (status_code r) then
      out = APISession.Raised (APISession.RetryError r) ∨
      (out = APISession.Raised (APISession.Exn TypeError) ∧ ¬ headers_ok kw)
    else if accepted (status_code r) then out = APISession.Returned r
    else out = APISession.Raised (APISession.HTTPError r).
Proof.
  intros Hs Hrun. rewrite (request_run _ _ _ s) in Hrun by done.
  destruct (run_outcome _ _ _ _ _ _ _ _ Hrun) as (i & rq & Hi & Hlen & Hout).
  exists i, rq. split_and!; [done..|].
  cbv zeta in *. change (0 + i)%nat with i in Hout.
  destruct (APISession.retryable (status_code (send s i rq))); [|done].
  destruct Hout as [[-> _]|(-> & _ & _ & Hno)]; [by left | by right].
Qed.

(** C9: [get], [post], [put] and [delete] of an object go straight to
    the session the object holds: each sends its request, with the
    keyword arguments it was given, to the url made of the base url the
    object was constructed with and the path appended to it, every
    request of the call going to that session, with that method and that
    url.  Only the status of the response to the last request decides how
    the call ends: when the status is not a retried one and passes the
    check, the call returns that response, the session's own, unchanged;
    when it does not pass, the call raises the error of the check; on a
    retried status the call raises (the retry error, or the [TypeError] of
    the hook when the ['headers'] keyword is not a dict). *)
Theorem C9_raw_http_calls new_session
    (send : Session → nat → Request → Response) (accepted : Z → bool)
    access_key secret_key base_url retries backoff ua_identity session path
    (kw : gmap string value) :
  let self := __init__ new_session access_key secret_key base_url retries
                backoff ua_identity session in
  let target := default "https://cloud.tenable.com" base_url
                  +:+ "/" +:+ path in
  ∃ s, _session self = Some s ∧
    Forall2
      (λ verb (result : list APISession.event * APISession.outcome),
         APISession.sent result.1 !! 0%nat
         = Some {| method := verb; url := target; kwargs := kw |} ∧
         result.1 = APISession.with_backoff s (APISession.sent result.1) ∧
         (∀ rq, rq ∈ APISession.sent result.1 →
                method rq = verb ∧ url rq = target) ∧
         ∃ i rq, APISession.sent result.1 !! i = Some rq ∧
           length (APISession.sent result.1) = S i ∧
           let r := send s i rq in
           if APISession.retryable (status_code r) then
             result.2 = APISession.Raised (APISession.RetryError r) ∨
             (result.2 = APISession.Raised (APISession.Exn TypeError)
              ∧ ¬ headers_ok kw)
           else if accepted (status_code r) then
             result.2 = APISession.Returned r
           else result.2 = APISession.Raised (APISession.HTTPError r))
      ["GET"; "POST"; "PUT"; "DELETE"]
      [ get send accepted self path kw; post send accepted self path kw;
        put send accepted self path kw; delete send accepted self path kw ].
Proof.
  intros self target.
  destruct (init_attrs new_session access_key secret_key base_url retries
              backoff ua_identity session) as (Hurl & _ & s & Hs).
  fold self in Hurl, Hs. exists s. split; [done|].
  assert (target = _url self +:+ "/" +:+ path) as ->
    by (by rewrite Hurl).
  repeat first [apply List.Forall2_nil | apply List.Forall2_cons].
  all: match goal with
       | |- context [APISession.sent (?call).1] =>
           destruct (raw_call send accepted self s _ path kw _ _ Hs
                       (surjective_pairing call)) as (H0 & Hwb & Hall & _);
           pose proof (raw_result send accepted self s _ path kw _ _ Hs
                         (surjective_pairing call)) as Hres
       end.
  all: by split_and!.
Qed.

(** The four verbs against a server that answers 429 twice and then 200:
    each returns the 200 response, all its requests made with its own
    method to the url of the path. *)
Lemma C9_raw_http_calls_witness :
  Forall2
    (λ verb result,
       result.2 = APISession.Returned Sample.fine ∧
       length (APISession.sent result.1) = 3%nat ∧
       ∀ rq, rq ∈ APISession.sent result.1 →
             method rq = verb ∧ url rq = "https://cloud.tenable.com/scans")
    ["GET"; "POST"; "PUT"; "DELETE"]
    [ get Sample.throttled_twice Sample.success Sample.tio "scans"
        Sample.params_only;
      post Sample.throttled_twice Sample.success Sample.tio "scans"
        Sample.params_only;
      put Sample.throttled_twice Sample.success Sample.tio "scans"
        Sample.params_only;
      delete Sample.throttled_twice Sample.success Sample.tio "scans"
        Sample.params_only ].
Proof.
  destruct (C9_raw_http_calls (λ _, Sample.plain_session)
              Sample.throttled_twice Sample.success "ACCESS_KEY"
              "SECRET_KEY" None None None None None "scans"
              Sample.params_only) as (s & Hs & Hall).
  repeat (apply Forall2_cons in Hall
            as [(_ & _ & ? & i & rq & _ & Hlen & Hout) Hall];
          apply List.Forall2_cons;
          [ assert (i = 2%nat) as -> by (vm_compute in Hlen; lia);
            split_and!; [exact Hout | vm_compute; reflexivity | done]
          | clear i rq Hlen Hout ]).
  apply List.Forall2_nil.
Defined.

(** C10: when the constructor is given no url, the base url the paths are
    appended to is ['https://cloud.tenable.com']: it is the [_url] of the
    object, and the url of every request of a call, the first one to
    begin with, is that url followed by the path. *)
Theorem C10_default_base_url new_session send accepted access_key secret_key
    retries backoff ua_identity session verb path (kw : gmap string value) :
  let self := __init__ new_session access_key secret_key None retries
                backoff ua_identity session in
  let tr := (_request send accepted self verb path kw).1 in
  _url self = "https://cloud.tenable.com" ∧
  APISession.sent tr !! 0%nat
  = Some {| method := verb;
            url := "https://cloud.tenable.com" +:+ "/" +:+ path;
            kwargs := kw |} ∧
  Forall (λ rq, url rq = "https://cloud.tenable.com" +:+ "/" +:+ path)
    (APISession.sent tr).
Proof.
  intros self tr.
  destruct (init_attrs new_session access_key secret_key None retries
              backoff ua_identity session) as (Hurl & _ & s & Hs).
  fold self in Hurl, Hs.
  change (_url self = "https://cloud.tenable.com") in Hurl.
  destruct (raw_call send accepted self s verb path kw _ _ Hs
              (surjective_pairing _)) as (H0 & _ & Hall & _).
  fold tr in H0, Hall. rewrite Hurl in H0, Hall.
  split_and!; [done..|].
  apply Forall_forall. intros rq Hrq. by apply Hall.
Qed.

Lemma C8_endpoint_properties_witness :
  ∃ cls l w', scans 0%nat Sample.store = inr (l, w') ∧
    heap Sample.store !! l = None ∧
    heap w' = <[l := Endpoint cls 0%nat]> (heap Sample.store) ∧
    timezones_calls w' = timezones_calls Sample.store ∧
    ∀ name2 l2 w2, getattr name2 0%nat w' = inr (l2, w2) → l2 ≠ l.
Proof.
  exact (C8_endpoint_properties Name.scans 0%nat Sample.store).
Defined.

(** ** More on the hook [_retry_request] *)

Lemma tag_tag r n h : tag r n (tag r n h) = tag r n h.
Proof.
  apply map_eq. intros k.
  destruct (decide (k = "X-Tio-Retry-Count")) as [->|H1];
    [by rewrite !tag_count|].
  destruct (decide (k = "X-Tio-Last-Request-Uuid")) as [->|H2].
  - rewrite !tag_uuid. by destruct (headers r "X-Request-Uuid").
  - by rewrite !tag_other.
Qed.

Lemma returned_kwargs r n (kw kw' : gmap string value) :
  _retry_request r n kw = inr kw' →
  headers_ok kw ∧
  kw' = <["headers" := VDict (tag r n (default ∅ (headers_of kw)))]> kw.
Proof.
  intros H. destruct (retry_request_returns _ _ _ _ H) as [Hok _].
  split; [done|]. rewrite retry_request_ok in H by done. by injection H.
Qed.



(** X2: the hook is idempotent: called again with the same response and
    the same count on the kwargs it returned, it returns them as they
    are. *)
Theorem X2_retry_request_idempotent r n (kw kw' : gmap string value) :
  _retry_request r n kw = inr kw' →
  _retry_request r n kw' = inr kw'.
Proof.
  intros H. apply returned_kwargs in H as [_ ->].
  rewrite (retry_request_dict _ _ _ (tag r n (default ∅ (headers_of kw))))
    by apply lookup_insert_eq.
  by rewrite insert_insert_eq, tag_tag.
Qed.

Lemma X2_retry_request_idempotent_witness :
  ∃ kw', _retry_request Sample.throttled 1 Sample.accept_csv = inr kw' ∧
         _retry_request Sample.throttled 1 kw' = inr kw'.
Proof.
  eexists. split; [vm_compute; reflexivity|].
  apply (X2_retry_request_idempotent Sample.throttled 1 Sample.accept_csv).
  vm_compute; reflexivity.
Defined.

(** X3: two retries in a row: the kwargs of the second retry carry the
    count of the second retry, the request uuid of the second response if
    it has one, else the one of the first response if it has one, else the
    one the caller's headers held; every other header and every other
    keyword argument is the caller's. *)
Theorem X3_two_retries r1 n1 r2 n2 (kw : gmap string value) :
  headers_ok kw →
  ∃ kw1 kw2 h2,
    _retry_request r1 n1 kw = inr kw1 ∧
    _retry_request r2 n2 kw1 = inr kw2 ∧
    kw2 !! "headers" = Some (VDict h2) ∧
    h2 !! "X-Tio-Retry-Count" = Some (str n2) ∧
    h2 !! "X-Tio-Last-Request-Uuid"
    = match headers r2 "X-Request-Uuid", headers r1 "X-Request-Uuid" with
      | Some uuid, _ => Some uuid
      | None, Some uuid => Some uuid
      | None, None =>
          default ∅ (headers_of kw) !! "X-Tio-Last-Request-Uuid"
      end ∧
    (∀ k, k ≠ "X-Tio-Retry-Count" → k ≠ "X-Tio-Last-Request-Uuid" →
          h2 !! k = default ∅ (headers_of kw) !! k) ∧
    (∀ k, k ≠ "headers" → kw2 !! k = kw !! k).
Proof.
  intros Hok. eexists _, _, _.
  split; [by apply retry_request_ok|].
  split; [eapply retry_request_dict, lookup_insert_eq|].
  split; [apply lookup_insert_eq|].
  split; [apply tag_count|]. split; [|split].
  - rewrite !tag_uuid.
    by destruct (headers r2 "X-Request-Uuid"),
                (headers r1 "X-Request-Uuid").
  - intros k H1 H2. by rewrite !tag_other.
  - intros k Hk. by rewrite !lookup_insert_ne.
Qed.

Lemma X3_two_retries_witness :
  headers_ok Sample.accept_csv ∧
  ∃ kw1 kw2 h2,
    _retry_request Sample.throttled 1 Sample.accept_csv = inr kw1 ∧
    _retry_request Sample.throttled_bare 2 kw1 = inr kw2 ∧
    kw2 !! "headers" = Some (VDict h2) ∧
    h2 !! "X-Tio-Retry-Count" = Some "2" ∧
    h2 !! "X-Tio-Last-Request-Uuid" = Some "6f1c" ∧
    h2 !! "Accept" = Some "text/csv" ∧
    kw2 !! "params" = Some (VStr "q").
Proof.
  assert (headers_ok Sample.accept_csv) as H by (vm_compute; reflexivity).
  split; [exact H|].
  destruct (X3_two_retries Sample.throttled 1 Sample.throttled_bare 2
              Sample.accept_csv H)
    as (kw1 & kw2 & h2 & E1 & E2 & Hh & Hc & Hu & Ho & Hk).
  exists kw1, kw2, h2. split; [exact E1|]. split; [exact E2|].
  split; [exact Hh|]. split; [exact Hc|]. split; [exact Hu|].
  split; [by rewrite Ho | by rewrite Hk].
Defined.

(** X4: the hook takes nothing away: the keys of the kwargs it returns
    are those of kwargs and ['headers'], and the keys of the headers it
    returns are those of the headers of kwargs, ['X-Tio-Retry-Count'],
    and ['X-Tio-Last-Request-Uuid'] when the response has a request
    uuid. *)
Theorem X4_retry_request_keys r n (kw kw' : gmap string value) :
  _retry_request r n kw = inr kw' →
  dom kw' = {[ "headers" ]} ∪ dom kw ∧
  ∃ h', kw' !! "headers" = Some (VDict h') ∧
    dom h'
    = {[ "X-Tio-Retry-Count" ]}
      ∪ (match headers r "X-Request-Uuid" with
         | Some _ => {[ "X-Tio-Last-Request-Uuid" ]}
         | None => ∅
         end)
      ∪ dom (default ∅ (headers_of kw)).
Proof.
  intros H. apply returned_kwargs in H as [_ ->].
  split; [by rewrite dom_insert_L|].
  eexists. split; [apply lookup_insert_eq|].
  unfold tag. rewrite dom_insert_L.
  destruct (headers r "X-Request-Uuid").
  - by rewrite dom_insert_L, (assoc_L (∪)).
  - by rewrite (right_id_L ∅ (∪)).
Qed.

Lemma X4_retry_request_keys_witness :
  ∃ kw', _retry_request Sample.throttled 1 Sample.params_only = inr kw' ∧
    dom kw' = {[ "headers"; "params" ]} ∧
    ∃ h', kw' !! "headers" = Some (VDict h') ∧
      dom h' = {[ "X-Tio-Retry-Count"; "X-Tio-Last-Request-Uuid" ]}.
Proof.
  eexists. split; [vm_compute; reflexivity|].
  destruct (X4_retry_request_keys Sample.throttled 1 Sample.params_only _
              ltac:(vm_compute; reflexivity)) as (Hd & h' & Hh & Hdh).
  split; [rewrite Hd; vm_compute; reflexivity|].
  exists h'. split; [exact Hh|]. rewrite Hdh. vm_compute; reflexivity.
Defined.

(** ** More on [_build_session] *)

Lemma semicolon_split (a a' b b' : string) :
  no_semicolon a = true → no_semicolon a' = true →
  a +:+ String (Ascii.ascii_of_nat 59) b
  = a' +:+ String (Ascii.ascii_of_nat 59) b' →
  a = a' ∧ b = b'.
Proof.
  revert a'. induction a as [|c a IH]; intros [|c' a'] Ha Ha' H;
    simpl in *.
  - by injection H.
  - injection H as <- _. by rewrite Ascii.eqb_refl in Ha'.
  - injection H as -> _. by rewrite Ascii.eqb_refl in Ha.
  - injection H as -> H.
    apply andb_prop in Ha as [_ Ha]. apply andb_prop in Ha' as [_ Ha'].
    destruct (IH a' Ha Ha' H) as [-> ->]. done.
Qed.

Lemma app_semicolon_inj (b b' : string) :
  b +:+ ";" = b' +:+ ";" → b = b'.
Proof.
  revert b'. induction b as [|c b IH]; intros [|c' b'] H; simpl in *.
  - done.
  - injection H as _ H. by destruct b'.
  - injection H as _ H. by destruct b.
  - injection H as -> H. by rewrite (IH b').
Qed.

(** X6: the ['X-APIKeys'] header tells the keys apart as long as the
    access keys hold no semicolon: two objects whose built sessions carry
    the same header then have the same access key and the same secret
    key.  Without that condition it does not: an access key that holds
    ['; secretKey='] gives the header of another pair of keys. *)
Theorem X6_api_keys_injective new_session new_session' self self' :
  no_semicolon (_access_key self) = true →
  no_semicolon (_access_key self') = true →
  api_keys_of (_build_session new_session self)
  = api_keys_of (_build_session new_session' self') →
  (_access_key self = _access_key self' ∧
   _secret_key self = _secret_key self') ∧
  (api_keys_of Case.odd_key = api_keys_of Case.other_key ∧
   _access_key Case.odd_key ≠ _access_key Case.other_key).
Proof.
  intros Ha Ha' H. split; [|split; [by vm_compute | by vm_compute]].
  destruct (build_session_keys new_session self) as (s & Hs & Hk).
  destruct (build_session_keys new_session' self') as (s' & Hs' & Hk').
  unfold api_keys_of in H. rewrite Hs, Hs', Hk, Hk' in H.
  apply (inj Some), (inj (String.app "accessKey=")) in H.
  change (_access_key self
            +:+ String (Ascii.ascii_of_nat 59)
                  (" secretKey=" +:+ _secret_key self +:+ ";")
          = _access_key self'
            +:+ String (Ascii.ascii_of_nat 59)
                  (" secretKey=" +:+ _secret_key self' +:+ ";")) in H.
  apply semicolon_split in H as [Hkey H]; [|done..].
  split; [done|].
  apply (inj (String.app " secretKey=")) in H.
  by apply app_semicolon_inj.
Qed.

Lemma X6_api_keys_injective_witness :
  no_semicolon (_access_key Sample.tio) = true ∧
  api_keys_of (_build_session (λ _, Sample.plain_session) Sample.tio)
  = api_keys_of (_build_session (λ _, Sample.tio_session) Sample.tio) ∧
  _secret_key Sample.tio = _secret_key Sample.tio.
Proof.
  assert (no_semicolon (_access_key Sample.tio) = true) as H
    by (vm_compute; reflexivity).
  assert (api_keys_of (_build_session (λ _, Sample.plain_session) Sample.tio)
          = api_keys_of (_build_session (λ _, Sample.tio_session) Sample.tio))
    as E by (vm_compute; reflexivity).
  split; [exact H|]. split; [exact E|].
  exact (proj2 (proj1 (X6_api_keys_injective _ _ Sample.tio Sample.tio
                         H H E))).
Defined.

(** ** More on the store: [_tz] and the endpoint properties *)

Lemma set_tzcache_same o : set_tzcache (_tzcache o) o = o.
Proof. by destruct o. Qed.

Lemma getattr_run name self w :
  ∃ cls, getattr name self w
         = inr (fresh (dom (heap w)),
                {| heap := <[fresh (dom (heap w)) := Endpoint cls self]>
                             (heap w);
                   timezones_calls := timezones_calls w |}).
Proof. destruct (getattr_new name self) as [cls ->]. by exists cls. Qed.

Lemma fresh_unused (w : world) : heap w !! fresh (dom (heap w)) = None.
Proof. apply not_elem_of_dom, is_fresh. Qed.

(** A run of accesses: as many objects as names, no object twice, every
    one new and made with [self]; the rest of the store is as it was. *)
Lemma getattrs_run names self w :
  ∃ ls w', getattrs names self w = inr (ls, w') ∧
    length ls = length names ∧
    NoDup ls ∧
    (∀ l, l ∈ ls → heap w !! l = None ∧
                   ∃ cls, heap w' !! l = Some (Endpoint cls self)) ∧
    (∀ l, l ∉ ls → heap w' !! l = heap w !! l) ∧
    timezones_calls w' = timezones_calls w ∧
    size (heap w') = (size (heap w) + length names)%nat.
Proof.
  revert w. induction names as [|name names IH]; intros w.
  - exists [], w.
    split_and!; [done | done | constructor | | done | done | simpl; lia].
    by intros l ?%elem_of_nil.
  - destruct (getattr_run name self w) as [cls Hget].
    pose proof (fresh_unused w) as Hfresh.
    set (l0 := fresh (dom (heap w))) in *.
    set (w0 := {| heap := <[l0 := Endpoint cls self]> (heap w);
                  timezones_calls := timezones_calls w |}) in *.
    destruct (IH w0) as (ls & w' & Hrun & Hlen & Hnd & Hnew & Hold & Hc & Hsz).
    assert (l0 ∉ ls) as Hl0.
    { intros [Hnone _]%Hnew. simpl in Hnone.
      by rewrite lookup_insert_eq in Hnone. }
    exists (l0 :: ls), w'. split_and!.
    + simpl. unfold bind at 1. rewrite Hget.
      unfold bind at 1. by rewrite Hrun.
    + simpl. lia.
    + by constructor.
    + intros l [->|Hl]%elem_of_cons.
      * split; [done|]. exists cls. rewrite Hold by done.
        apply lookup_insert_eq.
      * destruct (Hnew l Hl) as [Hnone Hcls]. split; [|done].
        simpl in Hnone. destruct (decide (l = l0)) as [->|Hne]; [done|].
        by rewrite lookup_insert_ne in Hnone.
    + intros l [Hne Hl]%not_elem_of_cons.
      rewrite Hold by done. simpl. by rewrite lookup_insert_ne.
    + by rewrite Hc.
    + rewrite Hsz. simpl. rewrite map_size_insert_None by done. lia.
Qed.

(** X7: what an access of [_tz] that returns has done to the store: the
    instance keeps all its attributes but the cache, which holds the value
    returned; a call of [scans.timezones()] was made exactly when the
    cache was falsy, and then one object, a [ScansAPI] made with the
    instance, was added to the store; no other object is touched. *)
Theorem X7_tz_frame listing self w o v w1 :
  heap w !! self = Some (Instance o) →
  _tz listing self w = inr (v, w1) →
  heap w1 !! self = Some (Instance (set_tzcache v o)) ∧
  timezones_calls w1
  = (timezones_calls w + (if truthy (_tzcache o) then 0 else 1))%nat ∧
  size (heap w1)
  = (size (heap w) + (if truthy (_tzcache o) then 0 else 1))%nat ∧
  (∀ l, l ≠ self →
     heap w1 !! l = heap w !! l ∨
     (heap w !! l = None ∧ truthy (_tzcache o) = false ∧
      heap w1 !! l = Some (Endpoint ScansAPI self))).
Proof.
  intros H Hrun. destruct (truthy (_tzcache o)) eqn:Ht.
  - rewrite (tz_hit _ _ _ o) in Hrun by done. injection Hrun as <- <-.
    rewrite set_tzcache_same. split_and!; [done | lia | lia |]. by left.
  - rewrite (tz_miss _ _ _ o) in Hrun by done. injection Hrun as <- <-.
    simpl.
    pose proof (fresh_unused w) as Hfresh.
    assert (fresh (dom (heap w)) ≠ self) as Hne by congruence.
    split_and!.
    + apply lookup_insert_eq.
    + lia.
    + rewrite map_size_insert_Some, map_size_insert_None by
        (done || (rewrite lookup_insert_ne by done; eauto)). lia.
    + intros l Hl. rewrite lookup_insert_ne by done.
      destruct (decide (l = fresh (dom (heap w)))) as [->|Hl'].
      * right. split_and!; [done..|]. apply lookup_insert_eq.
      * left. by rewrite lookup_insert_ne.
Qed.

Lemma X7_tz_frame_witness :
  ∃ v w1, _tz Sample.zones 0%nat Sample.store = inr (v, w1) ∧
    heap w1 !! 0%nat = Some (Instance (set_tzcache v Sample.tio)) ∧
    timezones_calls w1 = 1%nat ∧
    size (heap w1) = 2%nat.
Proof.
  eexists _, _. split; [vm_compute; reflexivity|].
  destruct (X7_tz_frame Sample.zones 0%nat Sample.store Sample.tio _ _
              ltac:(vm_compute; reflexivity) ltac:(vm_compute; reflexivity))
    as (Hself & Hcalls & Hsize & _).
  split; [exact Hself|]. split; [exact Hcalls|exact Hsize].
Defined.

(** X8: an empty listing is never kept as an answer: while
    [scans.timezones()] gives the empty list, every access of [_tz] calls
    it again, so [k] accesses in a row make [k] calls, return the empty
    list [k] times and leave [k] more objects in the store. *)
Theorem X8_tz_empty_listing listing self k w o :
  heap w !! self = Some (Instance o) →
  truthy (_tzcache o) = false →
  (∀ n, (timezones_calls w ≤ n)%nat → listing n = []) →
  ∃ w', _tz_times listing k self w = inr (replicate k (Some []), w') ∧
    timezones_calls w' = (timezones_calls w + k)%nat ∧
    size (heap w') = (size (heap w) + k)%nat.
Proof.
  revert w o. induction k as [|k IH]; intros w o H Ht Hall.
  - exists w. split_and!; [done | lia | lia].
  - pose proof (fresh_unused w) as Hfresh.
    assert (fresh (dom (heap w)) ≠ self) as Hne by congruence.
    pose proof (tz_miss listing self w o H Ht) as Hmiss. simpl in Hmiss.
    rewrite (Hall (timezones_calls w)) in Hmiss by lia.
    set (w1 := {| heap := <[self := Instance (set_tzcache (Some []) o)]>
                            (<[fresh (dom (heap w))
                               := Endpoint ScansAPI self]> (heap w));
                  timezones_calls := S (timezones_calls w) |}) in *.
    destruct (IH w1 (set_tzcache (Some []) o)) as (w' & Hrun & Hc & Hsz).
    + apply lookup_insert_eq.
    + done.
    + intros n Hn. apply Hall. simpl in Hn. lia.
    + exists w'. split_and!.
      * simpl. unfold bind at 1. rewrite Hmiss.
        unfold bind at 1. by rewrite Hrun.
      * rewrite Hc. simpl. lia.
      * rewrite Hsz. simpl.
        rewrite map_size_insert_Some, map_size_insert_None by
          (done || (rewrite lookup_insert_ne by done; eauto)). lia.
Qed.

Lemma X8_tz_empty_listing_witness :
  heap Sample.store !! 0%nat = Some (Instance Sample.tio) ∧
  ∃ w', _tz_times Case.no_zones 3 0%nat Sample.store
        = inr ([Some []; Some []; Some []], w') ∧
    timezones_calls w' = 3%nat ∧ size (heap w') = 4%nat.
Proof.
  assert (heap Sample.store !! 0%nat = Some (Instance Sample.tio)) as H
    by (vm_compute; reflexivity).
  split; [exact H|].
  destruct (X8_tz_empty_listing Case.no_zones 0%nat 3 Sample.store
              Sample.tio H eq_refl (λ _ _, eq_refl))
    as (w' & Hrun & Hc & Hsz).
  exists w'. split; [exact Hrun|]. split; [exact Hc|].
  rewrite Hsz. vm_compute; reflexivity.
Defined.

(** X9: accesses of the endpoint properties do not disturb the cache:
    after any run of them on an instance whose cache holds a truthy
    value, [_tz] still returns that value and makes no call. *)
Theorem X9_tz_after_accesses listing names self w o :
  heap w !! self = Some (Instance o) →
  truthy (_tzcache o) = true →
  ∃ ls w', getattrs names self w = inr (ls, w') ∧
    _tz listing self w' = inr (_tzcache o, w') ∧
    timezones_calls w' = timezones_calls w.
Proof.
  intros H Ht.
  destruct (getattrs_run names self w)
    as (ls & w' & Hrun & _ & _ & Hnew & Hold & Hc & _).
  exists ls, w'. split_and!; [done | | done].
  apply tz_hit; [|done]. rewrite Hold; [done|].
  intros [Hnone _]%Hnew. congruence.
Qed.

Lemma X9_tz_after_accesses_witness :
  heap Case.warm_store !! 0%nat
  = Some (Instance (set_tzcache (Some ["UTC"]) Sample.tio)) ∧
  ∃ ls w', getattrs [Name.scans; Name.users] 0%nat Case.warm_store
           = inr (ls, w') ∧
    _tz Sample.zones 0%nat w' = inr (Some ["UTC"], w') ∧
    timezones_calls w' = 1%nat.
Proof.
  assert (heap Case.warm_store !! 0%nat
          = Some (Instance (set_tzcache (Some ["UTC"]) Sample.tio))) as H
    by (vm_compute; reflexivity).
  split; [exact H|].
  exact (X9_tz_after_accesses Sample.zones [Name.scans; Name.users] 0%nat
           Case.warm_store _ H eq_refl).
Defined.

(** X10: accesses never share an object: a run of accesses of endpoint
    properties, the same property more than once or not, returns as many
    objects as accesses, all different, none of them in the store before,
    each made with the instance; the store grows by exactly that many
    objects and keeps every object it had. *)
Theorem X10_accesses_distinct names self w :
  ∃ ls w', getattrs names self w = inr (ls, w') ∧
    length ls = length names ∧
    NoDup ls ∧
    Forall (λ l, heap w !! l = None ∧
                 ∃ cls, heap w' !! l = Some (Endpoint cls self)) ls ∧
    map_Forall (λ l o, heap w' !! l = Some o) (heap w) ∧
    size (heap w') = (size (heap w) + length names)%nat.
Proof.
  destruct (getattrs_run names self w)
    as (ls & w' & Hrun & Hlen & Hnd & Hnew & Hold & _ & Hsz).
  exists ls, w'. split_and!; try done.
  - by apply Forall_forall.
  - intros l o Hl. rewrite Hold; [done|].
    intros [Hnone _]%Hnew. congruence.
Qed.

(** X11: the properties and the endpoint classes the module imports
    match one to one: a property makes objects of one class, two
    properties never make objects of the same class, and every class is
    the class of some property. *)
Theorem X11_property_class_bijection :
  (∀ name, ∃ cls, endpoint_of name = Some cls ∧
                  ∀ self, getattr name self = new (Endpoint cls self)) ∧
  (∀ name1 name2, name1 ≠ name2 → endpoint_of name1 ≠ endpoint_of name2) ∧
  (∀ cls, ∃ name, endpoint_of name = Some cls).
Proof.
  split_and!.
  - intros name. destruct name; eexists; (split; [vm_compute|]); reflexivity.
  - intros name1 name2 Hne.
    destruct name1, name2; try congruence; by vm_compute.
  - intros cls.
    destruct cls;
      [ exists Name.agent_config | exists Name.agent_exclusions
      | exists Name.agent_groups | exists Name.agents | exists Name.assets
      | exists Name.audit_log | exists Name.editor | exists Name.exclusions
      | exists Name.exports | exists Name.files | exists Name.filters
      | exists Name.folders | exists Name.groups | exists Name.permissions
      | exists Name.plugins | exists Name.policies
      | exists Name.scanner_groups | exists Name.scanners
      | exists Name.scans | exists Name.server | exists Name.session
      | exists Name.tags | exists Name.target_groups | exists Name.users
      | exists Name.workbenches ]; vm_compute; reflexivity.
Qed.

Lemma X11_property_class_bijection_witness :
  Name.agent_groups ≠ Name.agent_exclusions ∧
  endpoint_of Name.agent_groups ≠ endpoint_of Name.agent_exclusions.
Proof.
  assert (Name.agent_groups ≠ Name.agent_exclusions) as H by discriminate.
  split; [exact H|].
  exact (proj1 (proj2 X11_property_class_bijection) _ _ H).
Defined.
